(** * PermissionsAndroid: the permission facade of
    [Libraries/PermissionsAndroid/PermissionsAndroid.js]

    The module is a thin layer over two native modules,
    [NativeModules.PermissionsAndroid] (called [Permissions] in the source) and
    [NativeModules.DialogManagerAndroid].  Both are collaborators whose code is
    not part of the JavaScript file, so they are taken as parameters: every
    theorem below holds for all native modules, under the hypotheses it names.

    A promise is identified with its eventual fate.  The facade's methods are
    computations in a state monad over a [World] that holds the facade
    instance, the promise created by [new Promise] and the chronological trace
    of everything that crossed the native boundary. *)

From stdpp Require Import base strings list gmap.

Set Default Proof Using "Type".

(** ** Values *)

(** [type Rationale = { title: string; message: string }] *)
Record Rationale : Type := { title : string; message : string }.

(** What a promise is rejected with: either whatever a native module rejected
    with (opaque to the facade), or an [Error] object the facade built itself
    with [new Error(text)].  A freshly built object is never identical to one
    that came from elsewhere, hence two constructors. *)
Inductive Reason : Type :=
| NativeRejection (cause : string)
| NewError (text : string).

(** The eventual fate of a promise.  [Pending] is a promise that never
    settles. *)
Inductive Promise (A : Type) : Type :=
| Resolved (v : A)
| Rejected (e : Reason)
| Pending.
Arguments Resolved {A} v.
Arguments Rejected {A} e.
Arguments Pending {A}.

(** The two callbacks handed to [showAlert], in argument order. *)
Inductive Callback : Type :=
| OnError
| OnAction.

(** Calls the facade makes into the native modules, with their arguments. *)
Inductive Call : Type :=
| CheckPermission (permission : string)
| ShouldShowRequestPermissionRationale (permission : string)
| RequestPermission (permission : string)
| ShowAlert (options : Rationale).

(** One entry of the trace: a call out of the facade, or a callback fired by
    the dialog module into the facade. *)
Inductive Entry : Type :=
| Invoke (c : Call)
| Fire (cb : Callback).

(** ** The native modules

    [require('NativeModules')]: what each native method answers, which may
    depend on everything that happened before (the trace at the time of the
    call).  The three [Permissions] methods return a promise; [showAlert]
    returns nothing and answers by firing its callbacks, here the list of
    callbacks it fires, in order. *)
Record NativeModules : Type := {
  Permissions_checkPermission_answer :
    list Entry -> string -> Promise bool;
  Permissions_shouldShowRequestPermissionRationale_answer :
    list Entry -> string -> Promise bool;
  Permissions_requestPermission_answer :
    list Entry -> string -> Promise bool;
  DialogManagerAndroid_showAlert_fires :
    list Entry -> Rationale -> list Callback
}.

(** ** The facade instance and the world *)

(** [class PermissionsAndroid { PERMISSIONS: Object; ... }] *)
Record Instance : Type := { PERMISSIONS : gmap string string }.

Record World : Type := {
  this : Instance;                  (* the exported facade object *)
  promise : option (Promise bool);  (* the promise of [new Promise]:
                                       [None] while neither [resolve] nor
                                       [reject] has been called on it *)
  trace : list Entry                (* oldest entry first *)
}.

(** ** The monad *)

Definition M (A : Type) : Type := World -> A * World.

Definition ret {A} (a : A) : M A := fun w => (a, w).

Definition bind {A B} (m : M A) (k : A -> M B) : M B :=
  fun w => k (m w).1 (m w).2.

Declare Scope js_scope.
Delimit Scope js_scope with js.
Notation "x <- m ;; k" := (bind m (fun x => k))
  (at level 100, m at next level, right associativity) : js_scope.
Notation "m ;; k" := (bind m (fun _ => k))
  (at level 100, right associativity) : js_scope.
Open Scope js_scope.

Definition history : M (list Entry) := fun w => (trace w, w).

Definition log (e : Entry) : M unit :=
  fun w => (tt, {| this := this w; promise := promise w;
                   trace := trace w ++ [e] |}).

Definition get_promise : M (option (Promise bool)) :=
  fun w => (promise w, w).

Definition set_promise (s : option (Promise bool)) : M unit :=
  fun w => (tt, {| this := this w; promise := s; trace := trace w |}).

Fixpoint for_each {A} (l : list A) (body : A -> M unit) : M unit :=
  match l with
  | [] => ret tt
  | x :: l' => body x ;; for_each l' body
  end.

(** [await p]: the rest of the async function runs with the value [p]
    resolves to; when [p] is rejected the async function's own promise is
    rejected with the same reason, and when [p] never settles neither does
    the function's promise.  In both cases the rest does not run. *)
Definition await {A B} (p : Promise A) (k : A -> M (Promise B))
  : M (Promise B) :=
  match p with
  | Resolved v => k v
  | Rejected e => ret (Rejected e)
  | Pending => ret Pending
  end.

Notation "x <~ m ;; k" := (bind m (fun p => await p (fun x => k)))
  (at level 100, m at next level, right associativity) : js_scope.

(** ** Promises built with [new Promise]

    [resolve(q)] with a promise [q] locks the new promise to [q]'s fate;
    [reject(e)] rejects it.  Either does nothing once one of them has been
    called. *)
Definition resolve (q : Promise bool) : M unit :=
  s <- get_promise ;;
  match s with
  | None => set_promise (Some q)
  | Some _ => ret tt
  end.

Definition reject (e : Reason) : M unit :=
  s <- get_promise ;;
  match s with
  | None => set_promise (Some (Rejected e))
  | Some _ => ret tt
  end.

Definition fate (s : option (Promise bool)) : Promise bool :=
  match s with
  | Some q => q
  | None => Pending
  end.

(** [new Promise((resolve, reject) => ...)]: a fresh promise, the executor
    run at once, and the fate the promise ends up with. *)
Definition new_Promise
    (executor : (Promise bool -> M unit) -> (Reason -> M unit) -> M unit)
  : M (Promise bool) :=
  set_promise None ;;
  executor resolve reject ;;
  s <- get_promise ;;
  ret (fate s).

(** ** The class: construction *)

(** An object literal: the properties are set from left to right.  The map
    holds the object's own properties; what the object inherits from
    [Object.prototype] is not part of it. *)
Definition object_literal (props : list (string * string))
  : gmap string string :=
  foldl (fun o kv => <[kv.1 := kv.2]> o) ∅ props.

(** The properties of the literal assigned to [this.PERMISSIONS], in source
    order. *)
Definition PERMISSIONS_literal : list (string * string) := [
       ("READ_CALENDAR", "android.permission.READ_CALENDAR");
       ("WRITE_CALENDAR", "android.permission.WRITE_CALENDAR");
       ("CAMERA", "android.permission.CAMERA");
       ("READ_CONTACTS", "android.permission.READ_CONTACTS");
       ("WRITE_CONTACTS", "android.permission.WRITE_CONTACTS");
       ("GET_ACCOUNTS", "android.permission.GET_ACCOUNTS");
       ("ACCESS_FINE_LOCATION", "android.permission.ACCESS_FINE_LOCATION");
       ("ACCESS_COARSE_LOCATION",
        "android.permission.ACCESS_COARSE_LOCATION");
       ("RECORD_AUDIO", "android.permission.RECORD_AUDIO");
       ("READ_PHONE_STATE", "android.permission.READ_PHONE_STATE");
       ("CALL_PHONE", "android.permission.CALL_PHONE");
       ("READ_CALL_LOG", "android.permission.READ_CALL_LOG");
       ("WRITE_CALL_LOG", "android.permission.WRITE_CALL_LOG");
       ("ADD_VOICEMAIL", "com.android.voicemail.permission.ADD_VOICEMAIL");
       ("USE_SIP", "android.permission.USE_SIP");
       ("PROCESS_OUTGOING_CALLS",
        "android.permission.PROCESS_OUTGOING_CALLS");
       ("BODY_SENSORS", "android.permission.BODY_SENSORS");
       ("SEND_SMS", "android.permission.SEND_SMS");
       ("RECEIVE_SMS", "android.permission.RECEIVE_SMS");
       ("READ_SMS", "android.permission.READ_SMS");
       ("RECEIVE_WAP_PUSH", "android.permission.RECEIVE_WAP_PUSH");
       ("RECEIVE_MMS", "android.permission.RECEIVE_MMS");
       ("READ_EXTERNAL_STORAGE",
        "android.permission.READ_EXTERNAL_STORAGE");
       ("WRITE_EXTERNAL_STORAGE",
        "android.permission.WRITE_EXTERNAL_STORAGE")
     ].

(** [constructor() { this.PERMISSIONS = {...}; }] *)
Definition constructor : Instance :=
  {| PERMISSIONS := object_literal PERMISSIONS_literal |}.

(** [PermissionsAndroid = new PermissionsAndroid(); module.exports = ...]:
    the world in which application code gets hold of the facade. *)
Definition module_exports : World :=
  {| this := constructor; promise := None; trace := [] |}.

(** ** The class: methods *)

Section Facade.

Variable native : NativeModules.

(** *** Calls into [NativeModules.PermissionsAndroid] *)

Definition Permissions_checkPermission (permission : string)
  : M (Promise bool) :=
  h <- history ;;
  log (Invoke (CheckPermission permission)) ;;
  ret (Permissions_checkPermission_answer native h permission).

Definition Permissions_shouldShowRequestPermissionRationale
    (permission : string) : M (Promise bool) :=
  h <- history ;;
  log (Invoke (ShouldShowRequestPermissionRationale permission)) ;;
  ret (Permissions_shouldShowRequestPermissionRationale_answer
         native h permission).

Definition Permissions_requestPermission (permission : string)
  : M (Promise bool) :=
  h <- history ;;
  log (Invoke (RequestPermission permission)) ;;
  ret (Permissions_requestPermission_answer native h permission).

(** Modelled from the spec: the dialog provider,
    [showAlert(rationale, onFailure, onSuccess) -> void], whose code is not
    in the JavaScript file.  It is fire-and-forget and communicates through
    the two callbacks; which ones it fires, and in which order, is the
    native module's choice ([DialogManagerAndroid_showAlert_fires]). *)
Definition DialogManagerAndroid_showAlert (options : Rationale)
    (errorCallback actionCallback : M unit) : M unit :=
  h <- history ;;
  log (Invoke (ShowAlert options)) ;;
  for_each (DialogManagerAndroid_showAlert_fires native h options)
    (fun cb =>
       log (Fire cb) ;;
       match cb with
       | OnError => errorCallback
       | OnAction => actionCallback
       end).

(** [checkPermission(permission) { return Permissions.checkPermission(permission); }] *)
Definition checkPermission (permission : string) : M (Promise bool) :=
  Permissions_checkPermission permission.

(** [async requestPermission(permission, rationale?)].  An absent
    [rationale] is [None]; a rationale object is truthy. *)
Definition requestPermission (permission : string)
    (rationale : option Rationale) : M (Promise bool) :=
  match rationale with
  | Some rationale =>
      shouldShowRationale <~
        Permissions_shouldShowRequestPermissionRationale permission ;;
      if (shouldShowRationale : bool) then
        new_Promise (fun resolve reject =>
          DialogManagerAndroid_showAlert
            rationale
            (reject (NewError "Error showing rationale"))
            (q <- Permissions_requestPermission permission ;; resolve q))
      else
        Permissions_requestPermission permission
  | None =>
      Permissions_requestPermission permission
  end.

(** *** Application code: a sequence of facade operations *)

Inductive Operation : Type :=
| Op_checkPermission (permission : string)
| Op_requestPermission (permission : string) (rationale : option Rationale).

Definition perform (op : Operation) : M (Promise bool) :=
  match op with
  | Op_checkPermission permission => checkPermission permission
  | Op_requestPermission permission rationale =>
      requestPermission permission rationale
  end.

Definition perform_all (ops : list Operation) : M unit :=
  for_each ops (fun op => perform op ;; ret tt).

End Facade.

(** ** Observations on traces *)

Definition is_requestPermission_call (e : Entry) : bool :=
  match e with
  | Invoke (RequestPermission _) => true
  | _ => false
  end.

Definition is_shouldShowRationale_call (e : Entry) : bool :=
  match e with
  | Invoke (ShouldShowRequestPermissionRationale _) => true
  | _ => false
  end.

Definition is_provider_call (e : Entry) : bool :=
  match e with
  | Invoke (CheckPermission _)
  | Invoke (ShouldShowRequestPermissionRationale _)
  | Invoke (RequestPermission _) => true
  | _ => false
  end.

Definition is_showAlert_call (e : Entry) : bool :=
  match e with
  | Invoke (ShowAlert _) => true
  | _ => false
  end.

Fixpoint count (f : Entry -> bool) (t : list Entry) : nat :=
  match t with
  | [] => 0
  | e :: t' => (if f e then 1 else 0) + count f t'
  end.

(** What the facade's two callbacks add to the trace when the dialog module
    fires [cb]: the affirmative callback calls the provider's
    [requestPermission], the negative one calls nothing. *)
Definition reaction (permission : string) (cb : Callback) : list Entry :=
  match cb with
  | OnError => [Fire OnError]
  | OnAction => [Fire OnAction; Invoke (RequestPermission permission)]
  end.


(** Two sets of native modules that answer every call alike. *)
Definition same_answers (n1 n2 : NativeModules) : Prop :=
  (forall h p, Permissions_checkPermission_answer n1 h p
               = Permissions_checkPermission_answer n2 h p) /\
  (forall h p, Permissions_shouldShowRequestPermissionRationale_answer n1 h p
               = Permissions_shouldShowRequestPermissionRationale_answer n2 h p) /\
  (forall h p, Permissions_requestPermission_answer n1 h p
               = Permissions_requestPermission_answer n2 h p) /\
  (forall h r, DialogManagerAndroid_showAlert_fires n1 h r
               = DialogManagerAndroid_showAlert_fires n2 h r).

(** ** Sample native modules, used to run the facade on concrete inputs *)

Definition camera_rationale : Rationale := {| title := "T"; message := "M" |}.

(** The rationale check has the fate [should], the dialog fires [fires], and
    the promises of [checkPermission] and [requestPermission] have the fate
    [granted]. *)
Definition sample_native (should : Promise bool) (fires : list Callback)
    (granted : Promise bool) : NativeModules :=
  {| Permissions_checkPermission_answer := fun _ _ => granted;
     Permissions_shouldShowRequestPermissionRationale_answer :=
       fun _ _ => should;
     Permissions_requestPermission_answer := fun _ _ => granted;
     DialogManagerAndroid_showAlert_fires := fun _ _ => fires |}.

(** What the facade does when the dialog module fires [cb] on the two
    closures [requestPermission] handed to [showAlert]. *)
Definition on_callback (native : NativeModules) (permission : string)
    (cb : Callback) : M unit :=
  log (Fire cb) ;;
  match cb with
  | OnError => reject (NewError "Error showing rationale")
  | OnAction => (q <- Permissions_requestPermission native permission ;;
                 resolve q)
  end.

(** The world once the rationale check has resolved [true] and [showAlert]
    has been called, before any callback fires. *)
Definition dialog_shown (permission : string) (rationale : Rationale)
    (w : World) : World :=
  {| this := this w; promise := None;
     trace := trace w
              ++ [Invoke (ShouldShowRequestPermissionRationale permission);
                  Invoke (ShowAlert rationale)] |}.

(** ** What the dialog provider promises

    [showAlert] reports completion through its two callbacks.  The facade
    does not check how often they fire, so the statements that depend on it
    name one of the following as a hypothesis. *)

(** Each of the two callbacks is invoked at most once. *)
Definition each_callback_at_most_once (native : NativeModules) : Prop :=
  forall h r, NoDup (DialogManagerAndroid_showAlert_fires native h r).

(** The callback pair is one-shot: at most one callback fires in all. *)
Definition one_shot (native : NativeModules) : Prop :=
  forall h r, length (DialogManagerAndroid_showAlert_fires native h r) <= 1.

(** ** Further observations *)

Definition is_checkPermission_call (e : Entry) : bool :=
  match e with
  | Invoke (CheckPermission _) => true
  | _ => false
  end.

(** How many times the dialog module fires the affirmative callback. *)
Fixpoint affirmatives (cbs : list Callback) : nat :=
  match cbs with
  | [] => 0
  | OnAction :: cbs' => S (affirmatives cbs')
  | OnError :: cbs' => affirmatives cbs'
  end.

(** The provider rejects with reasons of its own only: it never hands back an
    [Error] object built by the facade. *)
Definition native_rejections_only (native : NativeModules) : Prop :=
  forall h p text,
    Permissions_checkPermission_answer native h p <> Rejected (NewError text)
    /\ Permissions_shouldShowRequestPermissionRationale_answer native h p
       <> Rejected (NewError text)
    /\ Permissions_requestPermission_answer native h p
       <> Rejected (NewError text).

(** Whether [shouldShowRationale] came out [true]. *)
Definition rationale_needed (should : Promise bool) : bool :=
  match should with
  | Resolved true => true
  | _ => false
  end.


(** * Theorems *)

Ltac js_simpl := cbn [fst snd this promise trace fate].

(** Run the straight-line part of a method: unfold the monad and the calls
    into the native modules. *)
Ltac js_run :=
  unfold perform, requestPermission, checkPermission, new_Promise, await,
    DialogManagerAndroid_showAlert, Permissions_checkPermission,
    Permissions_shouldShowRequestPermissionRationale,
    Permissions_requestPermission, resolve, reject, get_promise, set_promise,
    log, history, bind, ret;
  js_simpl.

(** ** The callback loop of [showAlert] *)

Section Loop.

Variable native : NativeModules.
Variable permission : string.

Lemma loop_trace cbs w :
  trace (for_each cbs (on_callback native permission) w).2
  = trace w ++ (cbs ≫= reaction permission).
Proof.
  revert w. induction cbs as [|cb cbs IH]; intros w.
  - cbn. by rewrite app_nil_r.
  - cbn [for_each]. unfold bind at 1. rewrite IH.
    destruct cb; cbn; destruct (promise w); cbn;
      by rewrite <- !app_assoc.
Qed.

Lemma loop_this cbs w :
  this (for_each cbs (on_callback native permission) w).2 = this w.
Proof.
  revert w. induction cbs as [|cb cbs IH]; intros w; [done|].
  cbn [for_each]. unfold bind at 1. rewrite IH.
  destruct cb; cbn; by destruct (promise w).
Qed.

(** Once [resolve] or [reject] has been called, later callbacks leave the
    promise alone. *)
Lemma loop_locked cbs w q :
  promise w = Some q ->
  promise (for_each cbs (on_callback native permission) w).2 = Some q.
Proof.
  revert w. induction cbs as [|cb cbs IH]; intros w Hq; [done|].
  cbn [for_each]. unfold bind at 1. apply IH.
  destruct cb; cbn; by rewrite Hq.
Qed.

Lemma reaction_no_action cbs :
  OnAction ∉ cbs -> cbs ≫= reaction permission = Fire <$> cbs.
Proof.
  induction cbs as [|cb cbs IH]; intros Hn; [done|].
  apply not_elem_of_cons in Hn as [Hcb Hn].
  destruct cb; [|done]. cbn. by rewrite <- IH.
Qed.

End Loop.

(** ** The three paths of [requestPermission] *)

Section Paths.

Variable native : NativeModules.
Variables (p : string) (r : Rationale) (w : World).

Lemma requestPermission_absent :
  requestPermission native p None w
  = (Permissions_requestPermission_answer native (trace w) p,
     {| this := this w; promise := promise w;
        trace := trace w ++ [Invoke (RequestPermission p)] |}).
Proof. reflexivity. Qed.

Lemma requestPermission_unsettled :
  (forall b, Permissions_shouldShowRequestPermissionRationale_answer
               native (trace w) p <> Resolved b) ->
  requestPermission native p (Some r) w
  = (match Permissions_shouldShowRequestPermissionRationale_answer
             native (trace w) p with
     | Rejected e => Rejected e
     | _ => Pending
     end,
     {| this := this w; promise := promise w;
        trace := trace w
                 ++ [Invoke (ShouldShowRequestPermissionRationale p)] |}).
Proof.
  intros H. js_run.
  destruct (Permissions_shouldShowRequestPermissionRationale_answer _ _ _)
    as [b|e|]; [by destruct (H b)|done|done].
Qed.

Lemma requestPermission_not_needed :
  Permissions_shouldShowRequestPermissionRationale_answer
    native (trace w) p = Resolved false ->
  requestPermission native p (Some r) w
  = (Permissions_requestPermission_answer native
       (trace w ++ [Invoke (ShouldShowRequestPermissionRationale p)]) p,
     {| this := this w; promise := promise w;
        trace := trace w
                 ++ [Invoke (ShouldShowRequestPermissionRationale p);
                     Invoke (RequestPermission p)] |}).
Proof.
  intros H. js_run. rewrite H. js_simpl. by rewrite <- app_assoc.
Qed.

Lemma requestPermission_shown :
  Permissions_shouldShowRequestPermissionRationale_answer
    native (trace w) p = Resolved true ->
  let wf :=
    (for_each
       (DialogManagerAndroid_showAlert_fires native
          (trace w ++ [Invoke (ShouldShowRequestPermissionRationale p)]) r)
       (on_callback native p) (dialog_shown p r w)).2 in
  requestPermission native p (Some r) w = (fate (promise wf), wf).
Proof.
  intros H. js_run. rewrite H. js_simpl. unfold dialog_shown.
  by rewrite <- app_assoc.
Qed.

Lemma requestPermission_confirmed rest :
  Permissions_shouldShowRequestPermissionRationale_answer
    native (trace w) p = Resolved true ->
  DialogManagerAndroid_showAlert_fires native
    (trace w ++ [Invoke (ShouldShowRequestPermissionRationale p)]) r
  = OnAction :: rest ->
  OnAction ∉ rest ->
  (requestPermission native p (Some r) w).1
  = Permissions_requestPermission_answer native
      (trace w ++ [Invoke (ShouldShowRequestPermissionRationale p);
                   Invoke (ShowAlert r); Fire OnAction]) p
  /\ trace (requestPermission native p (Some r) w).2
     = trace w ++ [Invoke (ShouldShowRequestPermissionRationale p);
                   Invoke (ShowAlert r); Fire OnAction;
                   Invoke (RequestPermission p)] ++ (Fire <$> rest).
Proof.
  intros Hshould Hfires Hrest.
  rewrite (requestPermission_shown Hshould). rewrite Hfires. cbn [fst snd].
  split.
  - cbn [for_each]. unfold bind at 1.
    erewrite loop_locked; [reflexivity|].
    cbn. by rewrite <- !app_assoc.
  - rewrite loop_trace. cbn [mbind list_bind app].
    rewrite reaction_no_action by done.
    cbn. by rewrite <- !app_assoc.
Qed.

Lemma requestPermission_this rationale :
  this (requestPermission native p rationale w).2 = this w.
Proof.
  destruct rationale as [r'|]; [|done].
  destruct (Permissions_shouldShowRequestPermissionRationale_answer
              native (trace w) p) as [[|]|e|] eqn:Hshould.
  - js_run. rewrite Hshould. js_simpl.
    exact (loop_this native p _
             {| this := this w; promise := None;
                trace := (trace w
                   ++ [Invoke (ShouldShowRequestPermissionRationale p)])
                   ++ [Invoke (ShowAlert r')] |}).
  - js_run. by rewrite Hshould.
  - js_run. by rewrite Hshould.
  - js_run. by rewrite Hshould.
Qed.

End Paths.

(** ** Counting calls *)

Lemma count_app f t1 t2 : count f (t1 ++ t2) = count f t1 + count f t2.
Proof. induction t1 as [|e t1 IH]; cbn; [done|]. rewrite IH. lia. Qed.

Lemma count_fired f cbs :
  (forall cb, f (Fire cb) = false) -> count f (Fire <$> cbs) = 0.
Proof. intros Hf. induction cbs as [|cb cbs IH]; cbn; [done|]. by rewrite Hf. Qed.

(** ** checkPermission *)

(** C5: [checkPermission(p)] hands [p] as it is to the provider's
    [checkPermission], for any string [p], and the promise it returns has
    exactly the fate of the provider's promise: resolved with the same
    boolean, rejected with the same reason, or never settled. *)
Theorem checkPermission_forwards native p w :
  checkPermission native p w
  = (Permissions_checkPermission_answer native (trace w) p,
     {| this := this w; promise := promise w;
        trace := trace w ++ [Invoke (CheckPermission p)] |}).
Proof. reflexivity. Qed.

(** C10: [checkPermission(p)] issues exactly one call, to the provider's
    [checkPermission]; it calls neither the dialog provider nor the provider's
    [requestPermission] or [shouldShowRequestPermissionRationale], and it
    leaves the permission table as it was. *)
Theorem checkPermission_frame native p w :
  let w' := (checkPermission native p w).2 in
  trace w' = trace w ++ [Invoke (CheckPermission p)]
  /\ count is_provider_call (trace w') = count is_provider_call (trace w) + 1
  /\ count is_shouldShowRationale_call (trace w')
     = count is_shouldShowRationale_call (trace w)
  /\ count is_requestPermission_call (trace w')
     = count is_requestPermission_call (trace w)
  /\ count is_showAlert_call (trace w') = count is_showAlert_call (trace w)
  /\ PERMISSIONS (this w') = PERMISSIONS (this w).
Proof.
  cbn. rewrite !count_app. cbn. repeat split; lia.
Qed.

(** ** requestPermission without a rationale, or with one that is not needed *)

(** C3: [requestPermission(p)] without a rationale makes one call, to the
    provider's [requestPermission(p)], and the promise it returns has exactly
    the fate of the provider's promise (in particular it resolves to the
    boolean the provider resolves to); neither the rationale check nor the
    dialog provider is called. *)
Theorem requestPermission_without_rationale native p w :
  let result := (requestPermission native p None w).1 in
  let w' := (requestPermission native p None w).2 in
  result = Permissions_requestPermission_answer native (trace w) p
  /\ trace w' = trace w ++ [Invoke (RequestPermission p)]
  /\ count is_shouldShowRationale_call (trace w')
     = count is_shouldShowRationale_call (trace w)
  /\ count is_showAlert_call (trace w') = count is_showAlert_call (trace w).
Proof.
  rewrite requestPermission_absent. cbn [fst snd trace].
  rewrite !count_app. cbn. repeat split; lia.
Qed.

(** C4: when the rationale check resolves [false], [requestPermission(p, r)]
    goes on exactly as [requestPermission(p)] without a rationale does from
    there: the two calls give the same promise and leave the same world.  The
    promise has the fate of the provider's [requestPermission(p)] promise, and
    the dialog provider is not called. *)
Theorem requestPermission_rationale_not_needed native p r w :
  Permissions_shouldShowRequestPermissionRationale_answer
    native (trace w) p = Resolved false ->
  let checked :=
    (Permissions_shouldShowRequestPermissionRationale native p w).2 in
  let w' := (requestPermission native p (Some r) w).2 in
  requestPermission native p (Some r) w
  = requestPermission native p None checked
  /\ (requestPermission native p (Some r) w).1
     = Permissions_requestPermission_answer native (trace checked) p
  /\ trace w' = trace w ++ [Invoke (ShouldShowRequestPermissionRationale p);
                            Invoke (RequestPermission p)]
  /\ count is_showAlert_call (trace w') = count is_showAlert_call (trace w).
Proof.
  intros H checked w'. subst checked w'.
  rewrite (requestPermission_not_needed _ _ _ _ H).
  rewrite requestPermission_absent. cbn.
  rewrite <- app_assoc, !count_app. cbn. repeat split; lia.
Qed.

Lemma requestPermission_rationale_not_needed_witness :
  let native := sample_native (Resolved false) [OnAction] (Resolved true) in
  let p := "android.permission.CAMERA" in
  requestPermission native p (Some camera_rationale) module_exports
  = requestPermission native p None
      (Permissions_shouldShowRequestPermissionRationale
         native p module_exports).2
  /\ (requestPermission native p (Some camera_rationale) module_exports).1
     = Resolved true.
Proof.
  intros native p.
  pose proof (requestPermission_rationale_not_needed
                native p camera_rationale module_exports eq_refl) as H.
  split; [exact (proj1 H) | exact (proj1 (proj2 H))].
Defined.

(** ** requestPermission with a rationale that is needed *)

(** C1: when the rationale check resolves [true] and the dialog answers by
    firing its affirmative callback (as its first callback, and only once),
    [requestPermission(p, r)] calls [showAlert] exactly once, with [r]; then,
    from the callback, the provider's [requestPermission(p)] exactly once; and
    the promise it returns has exactly the fate of that provider call. *)
Theorem requestPermission_dialog_succeeds native p r w rest :
  let checked := trace w ++ [Invoke (ShouldShowRequestPermissionRationale p)] in
  let confirmed := checked ++ [Invoke (ShowAlert r); Fire OnAction] in
  Permissions_shouldShowRequestPermissionRationale_answer
    native (trace w) p = Resolved true ->
  DialogManagerAndroid_showAlert_fires native checked r = OnAction :: rest ->
  OnAction ∉ rest ->
  let result := (requestPermission native p (Some r) w).1 in
  let w' := (requestPermission native p (Some r) w).2 in
  result = Permissions_requestPermission_answer native confirmed p
  /\ trace w' = confirmed ++ [Invoke (RequestPermission p)] ++ (Fire <$> rest)
  /\ count is_showAlert_call (trace w') = count is_showAlert_call (trace w) + 1
  /\ count is_requestPermission_call (trace w')
     = count is_requestPermission_call (trace w) + 1.
Proof.
  intros checked confirmed Hshould Hfires Hrest result w'.
  destruct (requestPermission_confirmed native p r w rest Hshould Hfires Hrest)
    as [Hres Htrace].
  subst result w' confirmed checked.
  rewrite Hres, Htrace, <- !app_assoc. cbn [app].
  split; [done|]. split; [done|].
  rewrite !count_app. cbn [count is_showAlert_call is_requestPermission_call].
  rewrite !count_fired by done. lia.
Qed.

(** The scenario of the specification: key [CAMERA], rationale
    [{title: "T", message: "M"}], rationale needed, the dialog succeeds and
    the provider grants. *)
Lemma requestPermission_dialog_succeeds_witness :
  let native := sample_native (Resolved true) [OnAction] (Resolved true) in
  (requestPermission native "android.permission.CAMERA"
     (Some camera_rationale) module_exports).1 = Resolved true
  /\ trace (requestPermission native "android.permission.CAMERA"
              (Some camera_rationale) module_exports).2
     = [Invoke (ShouldShowRequestPermissionRationale
                  "android.permission.CAMERA");
        Invoke (ShowAlert camera_rationale);
        Fire OnAction;
        Invoke (RequestPermission "android.permission.CAMERA")].
Proof.
  intros native.
  pose proof (requestPermission_dialog_succeeds native
                "android.permission.CAMERA" camera_rationale module_exports []
                eq_refl eq_refl (not_elem_of_nil OnAction)) as H.
  split; [exact (proj1 H) | exact (proj1 (proj2 H))].
Defined.

(** C2: when the rationale check resolves [true] and the dialog reports
    failure (it fires its negative callback, and does not fire the
    affirmative one), [requestPermission(p, r)] is rejected with the error
    ["Error showing rationale"], which is not a resolved [false], and the
    provider's [requestPermission] is not called. *)
Theorem requestPermission_dialog_fails native p r w rest :
  let checked := trace w ++ [Invoke (ShouldShowRequestPermissionRationale p)] in
  Permissions_shouldShowRequestPermissionRationale_answer
    native (trace w) p = Resolved true ->
  DialogManagerAndroid_showAlert_fires native checked r = OnError :: rest ->
  OnAction ∉ rest ->
  let result := (requestPermission native p (Some r) w).1 in
  let w' := (requestPermission native p (Some r) w).2 in
  result = Rejected (NewError "Error showing rationale")
  /\ (forall b, result <> Resolved b)
  /\ trace w' = checked ++ [Invoke (ShowAlert r); Fire OnError] ++ (Fire <$> rest)
  /\ count is_requestPermission_call (trace w')
     = count is_requestPermission_call (trace w).
Proof.
  intros checked Hshould Hfires Hrest result w'.
  assert (result = Rejected (NewError "Error showing rationale")) as Hres.
  { subst result. rewrite (requestPermission_shown _ _ _ _ Hshould).
    fold checked. rewrite Hfires. cbn [fst for_each]. unfold bind at 1.
    by erewrite loop_locked. }
  split; [done|]. split; [by rewrite Hres|].
  assert (trace w' = checked ++ [Invoke (ShowAlert r); Fire OnError]
                     ++ (Fire <$> rest)) as Htrace.
  { subst w'. rewrite (requestPermission_shown _ _ _ _ Hshould).
    fold checked. rewrite Hfires. cbn [snd]. rewrite loop_trace.
    cbn [mbind list_bind app]. rewrite reaction_no_action by done.
    subst checked. cbn. by rewrite <- !app_assoc. }
  split; [done|]. rewrite Htrace. subst checked.
  rewrite !count_app, !count_fired by done. cbn. lia.
Qed.

Lemma requestPermission_dialog_fails_witness :
  let native := sample_native (Resolved true) [OnError] (Resolved true) in
  (requestPermission native "android.permission.CAMERA"
     (Some camera_rationale) module_exports).1
  = Rejected (NewError "Error showing rationale")
  /\ trace (requestPermission native "android.permission.CAMERA"
              (Some camera_rationale) module_exports).2
     = [Invoke (ShouldShowRequestPermissionRationale
                  "android.permission.CAMERA");
        Invoke (ShowAlert camera_rationale);
        Fire OnError].
Proof.
  intros native.
  pose proof (requestPermission_dialog_fails native
                "android.permission.CAMERA" camera_rationale module_exports []
                eq_refl eq_refl (not_elem_of_nil OnAction)) as H.
  split; [exact (proj1 H) | exact (proj1 (proj2 (proj2 H)))].
Defined.

(** ** Where a provider call can sit in the part of the trace that the
    callbacks produce *)

Lemma reaction_split p cbs before c after :
  cbs ≫= reaction p = before ++ Invoke c :: after ->
  c = RequestPermission p
  /\ exists cbs1 cbs2,
       cbs = cbs1 ++ OnAction :: cbs2
       /\ before = (cbs1 ≫= reaction p) ++ [Fire OnAction]
       /\ after = cbs2 ≫= reaction p.
Proof.
  revert before. induction cbs as [|cb cbs IH]; intros before Heq.
  - by destruct before.
  - destruct cb; cbn in Heq.
    + destruct before as [|e before]; [done|].
      injection Heq as <- Heq.
      destruct (IH _ Heq) as (-> & cbs1 & cbs2 & -> & -> & ->).
      split; [done|]. by exists (OnError :: cbs1), cbs2.
    + destruct before as [|e1 [|e2 before]]; [done| |].
      * injection Heq as <- <- <-. split; [done|]. by exists [], cbs.
      * injection Heq as <- <- Heq.
        destruct (IH _ Heq) as (-> & cbs1 & cbs2 & -> & -> & ->).
        split; [done|]. by exists (OnAction :: cbs1), cbs2.
Qed.

Lemma count_requests_no_action p cbs :
  OnAction ∉ cbs -> count is_requestPermission_call (cbs ≫= reaction p) = 0.
Proof. intros H. rewrite reaction_no_action by done. by apply count_fired. Qed.

Lemma count_requests_NoDup p cbs :
  NoDup cbs -> count is_requestPermission_call (cbs ≫= reaction p) <= 1.
Proof.
  induction 1 as [|cb cbs Hnotin Hnodup IH]; [cbn; lia|].
  destruct cb; [exact IH|].
  change (1 + count is_requestPermission_call (cbs ≫= reaction p) <= 1).
  rewrite count_requests_no_action by done. lia.
Qed.

Lemma one_shot_each_callback_at_most_once native :
  one_shot native -> each_callback_at_most_once native.
Proof.
  intros H h r. specialize (H h r).
  destruct (DialogManagerAndroid_showAlert_fires native h r) as [|cb [|cb' l]];
    cbn in *; [constructor|apply NoDup_singleton|lia].
Qed.

(** ** Ordering *)

Lemma not_invoke_fired c (cbs : list Callback) : Invoke c ∉ Fire <$> cbs.
Proof. intros Hin. by apply list_elem_of_fmap in Hin as (cb & [=] & _). Qed.

Lemma NoDup_around_action (cbs1 cbs2 : list Callback) :
  NoDup (cbs1 ++ OnAction :: cbs2) ->
  (OnAction ∉ cbs1) /\ (OnAction ∉ cbs2).
Proof.
  intros (_ & Hdisjoint & [Hnotin _]%NoDup_cons)%NoDup_app. split; [|done].
  intros Hin. apply (Hdisjoint _ Hin). by left.
Qed.

(** C6: in every invocation of [requestPermission], provided the dialog
    provider fires each of its callbacks at most once, at most one call to
    the provider's [requestPermission] is issued, and it is the last call of
    the invocation: the rationale check (when a rationale was passed) was
    called first and had resolved; [showAlert], when the check resolved
    [true], was called before it and the dialog had called back (the request
    is issued from the affirmative callback); and nothing is called after
    it, neither [showAlert] nor the rationale check nor another request. *)
Theorem requestPermission_ordering native p rationale w :
  each_callback_at_most_once native ->
  exists new,
    trace (requestPermission native p rationale w).2 = trace w ++ new
    /\ count is_requestPermission_call new <= 1
    /\ forall before c after,
         is_requestPermission_call (Invoke c) = true ->
         new = before ++ Invoke c :: after ->
         (forall r, rationale = Some r ->
            exists b before',
              before = Invoke (ShouldShowRequestPermissionRationale p)
                       :: before'
              /\ Permissions_shouldShowRequestPermissionRationale_answer
                   native (trace w) p = Resolved b)
         /\ (forall r, Invoke (ShowAlert r) ∈ before ->
               last before = Some (Fire OnAction))
         /\ (forall r, rationale = Some r ->
               Permissions_shouldShowRequestPermissionRationale_answer
                 native (trace w) p = Resolved true ->
               Invoke (ShowAlert r) ∈ before)
         /\ (forall c', Invoke c' ∉ after).
Proof.
  intros Hcontract. destruct rationale as [r|].
  - destruct (Permissions_shouldShowRequestPermissionRationale_answer
                native (trace w) p) as [[|]|e|] eqn:Hshould.
    + (* the dialog is shown *)
      rewrite (requestPermission_shown _ _ _ _ Hshould). cbn [snd].
      rewrite loop_trace. cbn [dialog_shown trace]. rewrite <- app_assoc.
      eexists. split; [reflexivity|]. split.
      { rewrite count_app. cbn [count is_requestPermission_call].
        pose proof (count_requests_NoDup p _ (Hcontract
          (trace w ++ [Invoke (ShouldShowRequestPermissionRationale p)]) r)).
        lia. }
      intros before c after Hc Heq.
      destruct before as [|e1 [|e2 before]]; cbn in Heq.
      * injection Heq as <- _. discriminate Hc.
      * injection Heq as _ <- _. discriminate Hc.
      * injection Heq as <- <- Heq.
        apply reaction_split in Heq as (-> & cbs1 & cbs2 & Hfires & -> & ->).
        pose proof (Hcontract
          (trace w ++ [Invoke (ShouldShowRequestPermissionRationale p)]) r)
          as Hnodup.
        rewrite Hfires in Hnodup.
        apply NoDup_around_action in Hnodup as [_ Hlater].
        split; [|split; [|split]].
        -- intros r' _. by eexists _, _.
        -- intros _ _. by rewrite !app_comm_cons, last_snoc.
        -- intros r' [= <-] _. right; by left.
        -- intros c'. rewrite reaction_no_action by done.
           apply not_invoke_fired.
    + (* rationale not needed *)
      rewrite (requestPermission_not_needed _ _ _ _ Hshould). cbn [snd trace].
      eexists. split; [reflexivity|]. split; [cbn; lia|].
      intros before c after Hc Heq.
      destruct before as [|e1 [|e2 before]]; cbn in Heq.
      * injection Heq as <-. discriminate Hc.
      * injection Heq as <- _ <-. split; [|split; [|split]].
        -- intros r' _. by eexists _, _.
        -- intros r' Hin. apply list_elem_of_singleton in Hin. discriminate Hin.
        -- intros r' _ [=].
        -- intros c'. apply not_elem_of_nil.
      * injection Heq as _ _ Heq. by destruct before.
    + (* the check is rejected *)
      rewrite requestPermission_unsettled by (rewrite Hshould; done).
      cbn [snd trace]. eexists. split; [reflexivity|]. split; [cbn; lia|].
      intros before c after Hc Heq.
      destruct before as [|e1 before]; cbn in Heq.
      * injection Heq as <-. discriminate Hc.
      * injection Heq as _ Heq. by destruct before.
    + (* the check never settles *)
      rewrite requestPermission_unsettled by (rewrite Hshould; done).
      cbn [snd trace]. eexists. split; [reflexivity|]. split; [cbn; lia|].
      intros before c after Hc Heq.
      destruct before as [|e1 before]; cbn in Heq.
      * injection Heq as <-. discriminate Hc.
      * injection Heq as _ Heq. by destruct before.
  - rewrite requestPermission_absent. cbn [snd trace].
    eexists. split; [reflexivity|]. split; [cbn; lia|].
    intros before c after Hc Heq.
    destruct before as [|e1 before]; cbn in Heq.
    * injection Heq as _ <-. split; [done|]. split; [|split].
      -- intros r Hin. by apply elem_of_nil in Hin.
      -- intros r [=].
      -- intros c'. apply not_elem_of_nil.
    * injection Heq as _ Heq. by destruct before.
Qed.

Lemma requestPermission_ordering_witness :
  let native := sample_native (Resolved true) [OnAction] (Resolved true) in
  each_callback_at_most_once native
  /\ exists new,
       trace (requestPermission native "android.permission.CAMERA"
                (Some camera_rationale) module_exports).2
       = trace module_exports ++ new
       /\ count is_requestPermission_call new <= 1.
Proof.
  intros native.
  assert (each_callback_at_most_once native) as Hcontract.
  { intros h r. apply NoDup_singleton. }
  split; [exact Hcontract|].
  destruct (requestPermission_ordering native "android.permission.CAMERA"
              (Some camera_rationale) module_exports Hcontract)
    as (new & Htrace & Hcount & _).
  exists new. split; [exact Htrace | exact Hcount].
Defined.

(** ** Provider failures *)

Lemma perform_this native op w : this (perform native op w).2 = this w.
Proof.
  destruct op as [p|p rationale]; [done|]. apply requestPermission_this.
Qed.




(** ** The permission table *)

Lemma perform_all_this native ops w :
  this (perform_all native ops w).2 = this w.
Proof.
  unfold perform_all. revert w.
  induction ops as [|op ops IH]; intros w; [done|].
  cbn [for_each]. unfold bind at 1. rewrite IH.
  unfold bind, ret. cbn [snd]. apply perform_this.
Qed.

Lemma constructor_populated :
  Forall (fun kv => PERMISSIONS constructor !! kv.1 = Some kv.2)
    PERMISSIONS_literal.
Proof.
  unfold PERMISSIONS_literal.
  repeat (constructor; [by vm_compute|]). constructor.
Qed.

(** C8: the facade that application code gets hold of has its table set by
    the constructor: every key of the literal reads as its string identifier
    ([CAMERA] as ["android.permission.CAMERA"]) and there are 24 keys.  No
    sequence of facade operations, from any world, changes the table, so the
    same reads give the same values afterwards. *)
Theorem PERMISSIONS_stable native ops :
  let w' := (perform_all native ops module_exports).2 in
  PERMISSIONS (this module_exports) = PERMISSIONS constructor
  /\ (forall w, PERMISSIONS (this (perform_all native ops w).2)
                = PERMISSIONS (this w))
  /\ (forall key id, (key, id) ∈ PERMISSIONS_literal ->
        PERMISSIONS (this w') !! key = Some id)
  /\ PERMISSIONS (this w') !! "CAMERA" = Some "android.permission.CAMERA"
  /\ size (PERMISSIONS (this w')) = 24.
Proof.
  intros w'. subst w'. split; [done|].
  split; [intros w; by rewrite perform_all_this|].
  rewrite perform_all_this. cbn [module_exports this]. split; [|split].
  - intros key id Hin.
    exact (proj1 (Forall_forall _ _) constructor_populated (key, id) Hin).
  - by vm_compute.
  - by vm_compute.
Qed.

(** ** Arguments and determinism *)

Lemma loop_same_answers n1 n2 p cbs w :
  (forall h q, Permissions_requestPermission_answer n1 h q
               = Permissions_requestPermission_answer n2 h q) ->
  for_each cbs (on_callback n1 p) w = for_each cbs (on_callback n2 p) w.
Proof.
  intros Hsame. revert w. induction cbs as [|cb cbs IH]; intros w; [done|].
  cbn [for_each]. unfold bind at 1 2.
  assert (on_callback n1 p cb w = on_callback n2 p cb w) as ->; [|apply IH].
  destruct cb; [done|]. unfold on_callback. js_run. by rewrite Hsame.
Qed.

Lemma requestPermission_same_answers n1 n2 p rationale w :
  same_answers n1 n2 ->
  requestPermission n1 p rationale w = requestPermission n2 p rationale w.
Proof.
  intros (_ & Hshould & Hrequest & Hfires).
  destruct rationale as [r|].
  - destruct (Permissions_shouldShowRequestPermissionRationale_answer
                n1 (trace w) p) as [[|]|e|] eqn:H1;
      pose proof H1 as H2; rewrite Hshould in H2.
    + rewrite (requestPermission_shown _ _ _ _ H1),
        (requestPermission_shown _ _ _ _ H2).
      by rewrite Hfires, (loop_same_answers n1 n2) by done.
    + rewrite (requestPermission_not_needed _ _ _ _ H1),
        (requestPermission_not_needed _ _ _ _ H2).
      by rewrite Hrequest.
    + rewrite !requestPermission_unsettled by congruence.
      by rewrite Hshould.
    + rewrite !requestPermission_unsettled by congruence.
      by rewrite Hshould.
  - rewrite !requestPermission_absent. by rewrite Hrequest.
Qed.

(** C9: every provider call that [requestPermission(p, r)] makes
    ([shouldShowRequestPermissionRationale], [requestPermission]) receives
    exactly [p], and [showAlert], when called, receives exactly [r]; and the
    outcome (the returned promise and the trace) is the same for native
    modules that answer alike. *)
Theorem requestPermission_arguments native p rationale w :
  (exists new,
     trace (requestPermission native p rationale w).2 = trace w ++ new
     /\ forall c, Invoke c ∈ new ->
          c = ShouldShowRequestPermissionRationale p
          \/ c = RequestPermission p
          \/ exists r, rationale = Some r /\ c = ShowAlert r)
  /\ forall native', same_answers native native' ->
       requestPermission native' p rationale w
       = requestPermission native p rationale w.
Proof.
  split; [|intros native' H; symmetry; by apply requestPermission_same_answers].
  destruct rationale as [r|].
  - destruct (Permissions_shouldShowRequestPermissionRationale_answer
                native (trace w) p) as [[|]|e|] eqn:Hshould.
    + rewrite (requestPermission_shown _ _ _ _ Hshould). cbn [snd].
      rewrite loop_trace. cbn [dialog_shown trace]. rewrite <- app_assoc.
      eexists. split; [reflexivity|]. intros c Hin.
      apply elem_of_app in Hin as [Hin|Hin].
      * apply elem_of_cons in Hin as [[= ->]|Hin]; [by left|].
        apply list_elem_of_singleton in Hin as [= ->]. right; right. by exists r.
      * apply list_elem_of_split in Hin as (before & after & Heq).
        apply reaction_split in Heq as [-> _]. right; by left.
    + rewrite (requestPermission_not_needed _ _ _ _ Hshould). cbn [snd trace].
      eexists. split; [reflexivity|]. intros c Hin.
      apply elem_of_cons in Hin as [[= ->]|Hin]; [by left|].
      apply list_elem_of_singleton in Hin as [= ->]. right; by left.
    + rewrite requestPermission_unsettled by congruence. cbn [snd trace].
      eexists. split; [reflexivity|]. intros c Hin.
      apply list_elem_of_singleton in Hin as [= ->]. by left.
    + rewrite requestPermission_unsettled by congruence. cbn [snd trace].
      eexists. split; [reflexivity|]. intros c Hin.
      apply list_elem_of_singleton in Hin as [= ->]. by left.
  - rewrite requestPermission_absent. cbn [snd trace].
    eexists. split; [reflexivity|]. intros c Hin.
    apply list_elem_of_singleton in Hin as [= ->]. right; by left.
Qed.

(** ** Outside the dialog provider's contract

    The hypotheses on the dialog provider above are needed: the facade's
    closures do not guard against a dialog module that calls back more than
    it should. *)

(** A dialog module that reports failure and then success: the promise is
    rejected by the first callback, the second callback still calls the
    provider's [requestPermission], and the fate of that call is dropped. *)
Example dialog_reports_failure_then_success :
  let native := sample_native (Resolved true) [OnError; OnAction]
                  (Rejected (NativeRejection "E_INVALID_ACTIVITY")) in
  requestPermission native "android.permission.CAMERA"
    (Some camera_rationale) module_exports
  = (Rejected (NewError "Error showing rationale"),
     {| this := constructor;
        promise := Some (Rejected (NewError "Error showing rationale"));
        trace := [Invoke (ShouldShowRequestPermissionRationale
                            "android.permission.CAMERA");
                  Invoke (ShowAlert camera_rationale);
                  Fire OnError;
                  Fire OnAction;
                  Invoke (RequestPermission "android.permission.CAMERA")] |}).
Proof. reflexivity. Qed.

(** A dialog module that fires the affirmative callback twice: the provider's
    [requestPermission] is called twice, and the first call decides. *)
Example dialog_reports_success_twice :
  let native :=
    {| Permissions_checkPermission_answer := fun _ _ => Pending;
       Permissions_shouldShowRequestPermissionRationale_answer :=
         fun _ _ => Resolved true;
       Permissions_requestPermission_answer :=
         fun h _ => Resolved (bool_decide (length h = 3));
       DialogManagerAndroid_showAlert_fires :=
         fun _ _ => [OnAction; OnAction] |} in
  let run := requestPermission native "android.permission.CAMERA"
               (Some camera_rationale) module_exports in
  run.1 = Resolved true
  /\ count is_requestPermission_call (trace run.2) = 2.
Proof. split; reflexivity. Qed.

(** A dialog that never calls back leaves the promise pending, and the
    provider's [requestPermission] uncalled. *)
Example dialog_never_answers :
  let native := sample_native (Resolved true) [] (Resolved true) in
  let run := requestPermission native "android.permission.CAMERA"
               (Some camera_rationale) module_exports in
  run.1 = Pending
  /\ trace run.2 = [Invoke (ShouldShowRequestPermissionRationale
                              "android.permission.CAMERA");
                    Invoke (ShowAlert camera_rationale)].
Proof. split; reflexivity. Qed.

(** * Further properties of [requestPermission] *)

(** ** The first callback decides *)

Lemma shown_first_callback native p r w cb rest :
  Permissions_shouldShowRequestPermissionRationale_answer
    native (trace w) p = Resolved true ->
  DialogManagerAndroid_showAlert_fires native
    (trace w ++ [Invoke (ShouldShowRequestPermissionRationale p)]) r
  = cb :: rest ->
  (requestPermission native p (Some r) w).1
  = match cb with
    | OnError => Rejected (NewError "Error showing rationale")
    | OnAction =>
        Permissions_requestPermission_answer native
          (trace w ++ [Invoke (ShouldShowRequestPermissionRationale p);
                       Invoke (ShowAlert r); Fire OnAction]) p
    end.
Proof.
  intros Hshould Hfires.
  rewrite (requestPermission_shown _ _ _ _ Hshould), Hfires.
  cbn [fst for_each]. unfold bind at 1.
  destruct cb.
  - by erewrite loop_locked.
  - erewrite loop_locked; [reflexivity|]. cbn. by rewrite <- !app_assoc.
Qed.

Lemma shown_trace native p r w :
  Permissions_shouldShowRequestPermissionRationale_answer
    native (trace w) p = Resolved true ->
  trace (requestPermission native p (Some r) w).2
  = trace w
    ++ [Invoke (ShouldShowRequestPermissionRationale p); Invoke (ShowAlert r)]
    ++ (DialogManagerAndroid_showAlert_fires native
          (trace w ++ [Invoke (ShouldShowRequestPermissionRationale p)]) r
        ≫= reaction p).
Proof.
  intros Hshould. rewrite (requestPermission_shown _ _ _ _ Hshould).
  cbn [snd]. rewrite loop_trace. cbn [dialog_shown trace].
  by rewrite <- app_assoc.
Qed.

(** Once the dialog is shown, the callback that fires first settles the
    promise for good, whatever the dialog module fires afterwards: a negative
    callback rejects it with the facade's error, an affirmative one locks it
    to the provider's [requestPermission(p)] promise (which may itself be
    rejected or never settle). *)
Theorem first_callback_decides native p r w cb rest :
  let checked := trace w ++ [Invoke (ShouldShowRequestPermissionRationale p)] in
  Permissions_shouldShowRequestPermissionRationale_answer
    native (trace w) p = Resolved true ->
  DialogManagerAndroid_showAlert_fires native checked r = cb :: rest ->
  (requestPermission native p (Some r) w).1
  = match cb with
    | OnError => Rejected (NewError "Error showing rationale")
    | OnAction =>
        Permissions_requestPermission_answer native
          (checked ++ [Invoke (ShowAlert r); Fire OnAction]) p
    end.
Proof.
  intros checked Hshould Hfires. subst checked.
  rewrite (shown_first_callback _ _ _ _ _ _ Hshould Hfires).
  by rewrite <- app_assoc.
Qed.

Lemma first_callback_decides_witness :
  let native := sample_native (Resolved true) [OnAction; OnError; OnAction]
                  Pending in
  (requestPermission native "android.permission.CAMERA"
     (Some camera_rationale) module_exports).1 = Pending.
Proof.
  intros native.
  exact (first_callback_decides native "android.permission.CAMERA"
           camera_rationale module_exports OnAction [OnError; OnAction]
           eq_refl eq_refl).
Defined.

(** ** One provider request per affirmative callback *)

Lemma count_reaction_requests p cbs :
  count is_requestPermission_call (cbs ≫= reaction p) = affirmatives cbs.
Proof.
  induction cbs as [|cb cbs IH]; [done|].
  destruct cb; cbn [affirmatives]; [exact IH|].
  change (1 + count is_requestPermission_call (cbs ≫= reaction p)
          = S (affirmatives cbs)).
  by rewrite IH.
Qed.

Lemma count_reaction_other f p cbs :
  (forall cb, f (Fire cb) = false) ->
  f (Invoke (RequestPermission p)) = false ->
  count f (cbs ≫= reaction p) = 0.
Proof.
  intros Hfire Hreq. induction cbs as [|cb cbs IH]; [done|].
  destruct cb.
  - change (count f (Fire OnError :: (cbs ≫= reaction p)) = 0).
    cbn [count]. by rewrite Hfire, IH.
  - change (count f (Fire OnAction :: Invoke (RequestPermission p)
                     :: (cbs ≫= reaction p)) = 0).
    cbn [count]. by rewrite Hfire, Hreq, IH.
Qed.

(** Once the dialog is shown, the closure handed to [showAlert] is not
    guarded: the provider's [requestPermission(p)] is called once for every
    time the dialog module fires the affirmative callback, also after the
    promise has been settled. *)
Theorem one_request_per_affirmative_callback native p r w :
  let checked := trace w ++ [Invoke (ShouldShowRequestPermissionRationale p)] in
  Permissions_shouldShowRequestPermissionRationale_answer
    native (trace w) p = Resolved true ->
  let w' := (requestPermission native p (Some r) w).2 in
  count is_requestPermission_call (trace w')
  = count is_requestPermission_call (trace w)
    + affirmatives (DialogManagerAndroid_showAlert_fires native checked r).
Proof.
  intros checked Hshould w'. subst w' checked.
  rewrite (shown_trace _ _ _ _ Hshould), !count_app, count_reaction_requests.
  cbn. lia.
Qed.

Lemma one_request_per_affirmative_callback_witness :
  let native := sample_native (Resolved true) [OnError; OnAction; OnAction]
                  (Resolved true) in
  count is_requestPermission_call
    (trace (requestPermission native "android.permission.CAMERA"
              (Some camera_rationale) module_exports).2) = 2.
Proof.
  intros native.
  exact (one_request_per_affirmative_callback native
           "android.permission.CAMERA" camera_rationale module_exports
           eq_refl).
Defined.

(** ** Steps that do not complete *)

(** When the rationale check does not resolve (it is rejected, or never
    settles), the promise of [requestPermission(p, r)] has the fate of the
    check, the check is the only call made, and neither [showAlert] nor the
    provider's [requestPermission] is called. *)
Theorem requestPermission_check_unresolved native p r w :
  (forall b, Permissions_shouldShowRequestPermissionRationale_answer
               native (trace w) p <> Resolved b) ->
  let result := (requestPermission native p (Some r) w).1 in
  let w' := (requestPermission native p (Some r) w).2 in
  result = Permissions_shouldShowRequestPermissionRationale_answer
             native (trace w) p
  /\ trace w' = trace w ++ [Invoke (ShouldShowRequestPermissionRationale p)]
  /\ count is_showAlert_call (trace w') = count is_showAlert_call (trace w)
  /\ count is_requestPermission_call (trace w')
     = count is_requestPermission_call (trace w).
Proof.
  intros H result w'. subst result w'.
  rewrite (requestPermission_unsettled _ _ _ _ H). cbn [fst snd trace].
  rewrite !count_app. cbn. split; [|repeat split; lia].
  destruct (Permissions_shouldShowRequestPermissionRationale_answer _ _ _)
    as [b|e|]; [by destruct (H b)|done|done].
Qed.

Lemma requestPermission_check_unresolved_witness :
  let native := sample_native Pending [OnAction] (Resolved true) in
  (requestPermission native "android.permission.CAMERA"
     (Some camera_rationale) module_exports).1 = Pending
  /\ trace (requestPermission native "android.permission.CAMERA"
              (Some camera_rationale) module_exports).2
     = [Invoke (ShouldShowRequestPermissionRationale
                  "android.permission.CAMERA")].
Proof.
  intros native.
  assert (forall b, Permissions_shouldShowRequestPermissionRationale_answer
                      native (trace module_exports)
                      "android.permission.CAMERA" <> Resolved b) as Hnot.
  { intros b. discriminate. }
  pose proof (requestPermission_check_unresolved native
                "android.permission.CAMERA" camera_rationale module_exports
                Hnot) as H.
  split; [exact (proj1 H) | exact (proj1 (proj2 H))].
Defined.

(** When the dialog is shown and the dialog module fires no callback, the
    promise of [requestPermission(p, r)] never settles and the provider's
    [requestPermission] is not called: there is no timeout in the facade. *)
Theorem requestPermission_dialog_silent native p r w :
  let checked := trace w ++ [Invoke (ShouldShowRequestPermissionRationale p)] in
  Permissions_shouldShowRequestPermissionRationale_answer
    native (trace w) p = Resolved true ->
  DialogManagerAndroid_showAlert_fires native checked r = [] ->
  let result := (requestPermission native p (Some r) w).1 in
  let w' := (requestPermission native p (Some r) w).2 in
  result = Pending
  /\ trace w' = checked ++ [Invoke (ShowAlert r)]
  /\ count is_requestPermission_call (trace w')
     = count is_requestPermission_call (trace w).
Proof.
  intros checked Hshould Hfires result w'. subst result w' checked.
  rewrite (shown_trace _ _ _ _ Hshould), Hfires.
  rewrite (requestPermission_shown _ _ _ _ Hshould), Hfires.
  cbn [fst for_each ret dialog_shown promise fate snd mbind list_bind].
  rewrite app_nil_r, <- app_assoc, !count_app. cbn. repeat split; lia.
Qed.

Lemma requestPermission_dialog_silent_witness :
  let native := sample_native (Resolved true) [] (Resolved true) in
  (requestPermission native "android.permission.CAMERA"
     (Some camera_rationale) module_exports).1 = Pending.
Proof.
  intros native.
  exact (proj1 (requestPermission_dialog_silent native
                  "android.permission.CAMERA" camera_rationale module_exports
                  eq_refl eq_refl)).
Defined.

(** ** Where the outcomes come from *)

(** The facade never makes up a grant or a denial: when the promise of
    [requestPermission] resolves to a boolean, the provider's
    [requestPermission(p)] was called in that invocation and its promise
    resolved to that boolean. *)
Theorem resolved_only_by_provider native p rationale w b :
  (requestPermission native p rationale w).1 = Resolved b ->
  exists before after,
    trace (requestPermission native p rationale w).2
    = trace w ++ before ++ Invoke (RequestPermission p) :: after
    /\ Permissions_requestPermission_answer native (trace w ++ before) p
       = Resolved b.
Proof.
  intros Hres. destruct rationale as [r|].
  - destruct (Permissions_shouldShowRequestPermissionRationale_answer
                native (trace w) p) as [[|]|e|] eqn:Hshould.
    + destruct (DialogManagerAndroid_showAlert_fires native
                  (trace w ++ [Invoke (ShouldShowRequestPermissionRationale p)])
                  r) as [|cb rest] eqn:Hfires.
      * rewrite (requestPermission_shown _ _ _ _ Hshould), Hfires in Hres.
        discriminate Hres.
      * rewrite (shown_first_callback _ _ _ _ _ _ Hshould Hfires) in Hres.
        destruct cb; [discriminate Hres|].
        exists [Invoke (ShouldShowRequestPermissionRationale p);
                Invoke (ShowAlert r); Fire OnAction], (rest ≫= reaction p).
        split; [|done].
        by rewrite (shown_trace _ _ _ _ Hshould), Hfires.
    + rewrite (requestPermission_not_needed _ _ _ _ Hshould) in Hres |- *.
      cbn [fst snd trace] in *.
      by exists [Invoke (ShouldShowRequestPermissionRationale p)], [].
    + rewrite requestPermission_unsettled in Hres by congruence.
      rewrite Hshould in Hres. discriminate Hres.
    + rewrite requestPermission_unsettled in Hres by congruence.
      rewrite Hshould in Hres. discriminate Hres.
  - rewrite requestPermission_absent in Hres |- *. cbn [fst snd trace] in *.
    exists [], []. by rewrite app_nil_r.
Qed.

Lemma resolved_only_by_provider_witness :
  let native := sample_native (Resolved true) [OnAction] (Resolved false) in
  exists before after,
    trace (requestPermission native "android.permission.CAMERA"
             (Some camera_rationale) module_exports).2
    = trace module_exports ++ before
      ++ Invoke (RequestPermission "android.permission.CAMERA") :: after
    /\ Permissions_requestPermission_answer native
         (trace module_exports ++ before) "android.permission.CAMERA"
       = Resolved false.
Proof.
  intros native.
  exact (resolved_only_by_provider native "android.permission.CAMERA"
           (Some camera_rationale) module_exports false eq_refl).
Defined.

(** When the provider only rejects with reasons of its own, a promise of
    [requestPermission] rejected with an [Error] built by the facade means
    exactly one thing: a rationale was passed, the check resolved [true], and
    the first callback the dialog module fired was the negative one.  The
    error then reads ["Error showing rationale"]. *)
Theorem rationale_error_only_from_dialog native p rationale w text :
  native_rejections_only native ->
  (requestPermission native p rationale w).1 = Rejected (NewError text) ->
  text = "Error showing rationale"
  /\ exists r rest,
       rationale = Some r
       /\ Permissions_shouldShowRequestPermissionRationale_answer
            native (trace w) p = Resolved true
       /\ DialogManagerAndroid_showAlert_fires native
            (trace w ++ [Invoke (ShouldShowRequestPermissionRationale p)]) r
          = OnError :: rest.
Proof.
  intros Hnative Hres. destruct rationale as [r|].
  - destruct (Permissions_shouldShowRequestPermissionRationale_answer
                native (trace w) p) as [[|]|e|] eqn:Hshould.
    + destruct (DialogManagerAndroid_showAlert_fires native
                  (trace w ++ [Invoke (ShouldShowRequestPermissionRationale p)])
                  r) as [|cb rest] eqn:Hfires.
      * rewrite (requestPermission_shown _ _ _ _ Hshould), Hfires in Hres.
        discriminate Hres.
      * rewrite (shown_first_callback _ _ _ _ _ _ Hshould Hfires) in Hres.
        destruct cb.
        -- injection Hres as <-. split; [done|]. by exists r, rest.
        -- exfalso. exact (proj2 (proj2 (Hnative _ _ _)) Hres).
    + rewrite (requestPermission_not_needed _ _ _ _ Hshould) in Hres.
      exfalso. exact (proj2 (proj2 (Hnative _ _ _)) Hres).
    + rewrite requestPermission_unsettled in Hres by congruence.
      rewrite Hshould in Hres. injection Hres as ->.
      exfalso. exact (proj1 (proj2 (Hnative _ _ _)) Hshould).
    + rewrite requestPermission_unsettled in Hres by congruence.
      rewrite Hshould in Hres. discriminate Hres.
  - rewrite requestPermission_absent in Hres.
    exfalso. exact (proj2 (proj2 (Hnative _ _ _)) Hres).
Qed.

Lemma rationale_error_only_from_dialog_witness :
  let native := sample_native (Resolved true) [OnError]
                  (Rejected (NativeRejection "E_INVALID_ACTIVITY")) in
  native_rejections_only native
  /\ exists r rest,
       Some camera_rationale = Some r
       /\ Permissions_shouldShowRequestPermissionRationale_answer
            native (trace module_exports) "android.permission.CAMERA"
          = Resolved true
       /\ DialogManagerAndroid_showAlert_fires native
            (trace module_exports
             ++ [Invoke (ShouldShowRequestPermissionRationale
                           "android.permission.CAMERA")]) r
          = OnError :: rest.
Proof.
  intros native.
  assert (native_rejections_only native) as Hnative.
  { intros h p text. repeat split; discriminate. }
  split; [exact Hnative|].
  exact (proj2 (rationale_error_only_from_dialog native
                  "android.permission.CAMERA" (Some camera_rationale)
                  module_exports "Error showing rationale" Hnative eq_refl)).
Defined.

(** ** Which calls an invocation makes *)

(** [requestPermission] never calls the provider's [checkPermission]; it
    calls the rationale check once when a rationale is passed and not at all
    otherwise; and it calls [showAlert] once when a rationale is passed and
    the check resolves [true], and not at all otherwise, however the dialog
    module behaves. *)
Theorem requestPermission_call_counts native p rationale w :
  exists new,
    trace (requestPermission native p rationale w).2 = trace w ++ new
    /\ count is_checkPermission_call new = 0
    /\ count is_shouldShowRationale_call new
       = match rationale with Some _ => 1 | None => 0 end
    /\ count is_showAlert_call new
       = match rationale with
         | Some _ =>
             if rationale_needed
                  (Permissions_shouldShowRequestPermissionRationale_answer
                     native (trace w) p)
             then 1 else 0
         | None => 0
         end.
Proof.
  destruct rationale as [r|].
  - destruct (Permissions_shouldShowRequestPermissionRationale_answer
                native (trace w) p) as [[|]|e|] eqn:Hshould.
    + rewrite (shown_trace _ _ _ _ Hshould). eexists. split; [reflexivity|].
      rewrite !count_app, !count_reaction_other by done. by cbn.
    + rewrite (requestPermission_not_needed _ _ _ _ Hshould).
      eexists. split; [reflexivity|]. by cbn.
    + rewrite requestPermission_unsettled by congruence.
      eexists. split; [reflexivity|]. by cbn.
    + rewrite requestPermission_unsettled by congruence.
      eexists. split; [reflexivity|]. by cbn.
  - rewrite requestPermission_absent. eexists. split; [reflexivity|]. by cbn.
Qed.

(** ** Invocations do not share state *)

Lemma loop_indep native p cbs w1 w2 :
  trace w1 = trace w2 -> promise w1 = promise w2 ->
  trace (for_each cbs (on_callback native p) w1).2
  = trace (for_each cbs (on_callback native p) w2).2
  /\ promise (for_each cbs (on_callback native p) w1).2
     = promise (for_each cbs (on_callback native p) w2).2.
Proof.
  revert w1 w2. induction cbs as [|cb cbs IH]; intros w1 w2 Ht Hp; [done|].
  cbn [for_each]. unfold bind at 1 2 3 4.
  apply IH; destruct cb; cbn; rewrite <- ?Hp, <- ?Ht;
    by destruct (promise w1).
Qed.

(** The promise made by [new Promise] is fresh in every invocation: the
    outcome of [requestPermission] and the calls it makes do not depend on
    what an earlier invocation left behind (the state of its promise, the
    facade object), only on the arguments and on what the native modules
    answer. *)
Theorem requestPermission_fresh_promise native p rationale w1 w2 :
  trace w1 = trace w2 ->
  (requestPermission native p rationale w1).1
  = (requestPermission native p rationale w2).1
  /\ trace (requestPermission native p rationale w1).2
     = trace (requestPermission native p rationale w2).2.
Proof.
  intros Ht. destruct rationale as [r|].
  - destruct (Permissions_shouldShowRequestPermissionRationale_answer
                native (trace w1) p) as [[|]|e|] eqn:H1;
      pose proof H1 as H2; rewrite Ht in H2.
    + rewrite (requestPermission_shown _ _ _ _ H1),
        (requestPermission_shown _ _ _ _ H2). cbn [fst snd]. rewrite Ht.
      destruct (loop_indep native p
                  (DialogManagerAndroid_showAlert_fires native
                     (trace w2
                      ++ [Invoke (ShouldShowRequestPermissionRationale p)]) r)
                  (dialog_shown p r w1) (dialog_shown p r w2)) as [Htr Hpr].
      { cbn. by rewrite Ht. }
      { done. }
      by rewrite Htr, Hpr.
    + rewrite (requestPermission_not_needed _ _ _ _ H1),
        (requestPermission_not_needed _ _ _ _ H2). cbn. by rewrite Ht.
    + rewrite !requestPermission_unsettled by congruence. cbn.
      by rewrite Ht.
    + rewrite !requestPermission_unsettled by congruence. cbn.
      by rewrite Ht.
  - rewrite !requestPermission_absent. cbn. by rewrite Ht.
Qed.

Lemma requestPermission_fresh_promise_witness :
  let native := sample_native (Resolved true) [OnAction] (Resolved true) in
  let left_behind :=
    {| this := constructor;
       promise := Some (Rejected (NewError "Error showing rationale"));
       trace := [] |} in
  (requestPermission native "android.permission.CAMERA"
     (Some camera_rationale) left_behind).1
  = (requestPermission native "android.permission.CAMERA"
       (Some camera_rationale) module_exports).1.
Proof.
  intros native left_behind.
  exact (proj1 (requestPermission_fresh_promise native
                  "android.permission.CAMERA" (Some camera_rationale)
                  left_behind module_exports eq_refl)).
Defined.

(** * Further properties of the permission table *)

Lemma PERMISSIONS_literal_keys_NoDup : NoDup PERMISSIONS_literal.*1.
Proof. apply (bool_decide_unpack _). by vm_compute. Qed.

Lemma PERMISSIONS_literal_values_NoDup : NoDup PERMISSIONS_literal.*2.
Proof. apply (bool_decide_unpack _). by vm_compute. Qed.

(** An object literal whose keys are pairwise distinct holds exactly the
    properties written in it. *)
Lemma foldl_insert_lookup (props : list (string * string))
    (o : gmap string string) key id :
  NoDup props.*1 ->
  (foldl (fun o kv => <[kv.1 := kv.2]> o) o props !! key = Some id)
  <-> ((key, id) ∈ props \/ ((key ∉ props.*1) /\ o !! key = Some id)).
Proof.
  revert o. induction props as [|[k v] props IH]; intros o Hnodup.
  - cbn. split; [intros H; right; split; [apply not_elem_of_nil|done]|].
    intros [H|[_ H]]; [by apply elem_of_nil in H|done].
  - apply NoDup_cons in Hnodup as [Hk Hnodup]. cbn [foldl fst snd].
    rewrite (IH _ Hnodup), elem_of_cons, fmap_cons, not_elem_of_cons.
    cbn [fst]. destruct (decide (key = k)) as [->|Hne].
    + rewrite lookup_insert_eq. split.
      * intros [Hin|[_ [= <-]]]; [|by left; left].
        destruct Hk. apply list_elem_of_fmap. by exists (k, id).
      * intros [[[= <-]|Hin]|[[Hne _] _]]; [by right| |done].
        destruct Hk. apply list_elem_of_fmap. by exists (k, id).
    + rewrite lookup_insert_ne by done. split.
      * intros [Hin|[Hnot Ho]]; [by left; right|by right].
      * intros [[[= -> _]|Hin]|[[_ Hnot] Ho]]; [done|by left|by right].
Qed.

Lemma object_literal_lookup props key id :
  NoDup props.*1 ->
  object_literal props !! key = Some id <-> (key, id) ∈ props.
Proof.
  intros Hnodup. unfold object_literal.
  rewrite (foldl_insert_lookup _ _ _ _ Hnodup), lookup_empty.
  split; [by intros [H|[_ H]]|by left].
Qed.

Lemma NoDup_snd_inj (props : list (string * string)) k1 k2 id :
  NoDup props.*2 -> (k1, id) ∈ props -> (k2, id) ∈ props -> k1 = k2.
Proof.
  induction props as [|[k v] props IH]; intros Hnodup H1 H2.
  - by apply elem_of_nil in H1.
  - apply NoDup_cons in Hnodup as [Hv Hnodup].
    apply elem_of_cons in H1 as [H1|H1];
      apply elem_of_cons in H2 as [H2|H2]; simplify_eq.
    + done.
    + destruct Hv. apply list_elem_of_fmap. by exists (k2, v).
    + destruct Hv. apply list_elem_of_fmap. by exists (k1, v).
    + by apply IH.
Qed.

(** The own properties of the table are exactly the 24 written in the
    constructor: the table has [key] with the string [id] as an own property
    when, and only when, the literal pairs them.  (What a read of another key
    finds up the prototype chain is not a property of the table.) *)
Theorem PERMISSIONS_own_properties key id :
  PERMISSIONS constructor !! key = Some id
  <-> (key, id) ∈ PERMISSIONS_literal.
Proof. apply object_literal_lookup, PERMISSIONS_literal_keys_NoDup. Qed.

(** No two keys of the table share an identifier: the key can be recovered
    from the identifier. *)
Theorem PERMISSIONS_injective k1 k2 id :
  PERMISSIONS constructor !! k1 = Some id ->
  PERMISSIONS constructor !! k2 = Some id ->
  k1 = k2.
Proof.
  intros H1 H2.
  apply (object_literal_lookup _ _ _ PERMISSIONS_literal_keys_NoDup) in H1, H2.
  exact (NoDup_snd_inj _ _ _ _ PERMISSIONS_literal_values_NoDup H1 H2).
Qed.

Lemma PERMISSIONS_injective_witness :
  PERMISSIONS constructor !! "CAMERA" = Some "android.permission.CAMERA"
  /\ "CAMERA" = "CAMERA".
Proof.
  assert (PERMISSIONS constructor !! "CAMERA"
          = Some "android.permission.CAMERA") as H by (by vm_compute).
  split; [exact H|].
  exact (PERMISSIONS_injective "CAMERA" "CAMERA" "android.permission.CAMERA"
           H H).
Defined.

Lemma PERMISSIONS_literal_naming :
  Forall (fun kv =>
            kv.2 = String.append
                     (if decide (kv.1 = "ADD_VOICEMAIL")
                      then "com.android.voicemail.permission."
                      else "android.permission.") kv.1)
    PERMISSIONS_literal.
Proof.
  unfold PERMISSIONS_literal.
  repeat (constructor; [by vm_compute|]). constructor.
Qed.

(** Every identifier of the table is its key behind the prefix
    ["android.permission."], except [ADD_VOICEMAIL], whose prefix is
    ["com.android.voicemail.permission."]. *)
Theorem PERMISSIONS_naming key id :
  PERMISSIONS constructor !! key = Some id ->
  id = String.append
         (if decide (key = "ADD_VOICEMAIL")
          then "com.android.voicemail.permission."
          else "android.permission.") key.
Proof.
  intros H.
  apply (object_literal_lookup _ _ _ PERMISSIONS_literal_keys_NoDup) in H.
  exact (proj1 (Forall_forall _ _) PERMISSIONS_literal_naming (key, id) H).
Qed.

Lemma PERMISSIONS_naming_witness :
  PERMISSIONS constructor !! "ADD_VOICEMAIL"
  = Some "com.android.voicemail.permission.ADD_VOICEMAIL"
  /\ "com.android.voicemail.permission.ADD_VOICEMAIL"
     = String.append
         (if decide ("ADD_VOICEMAIL" = "ADD_VOICEMAIL")
          then "com.android.voicemail.permission."
          else "android.permission.") "ADD_VOICEMAIL".
Proof.
  assert (PERMISSIONS constructor !! "ADD_VOICEMAIL"
          = Some "com.android.voicemail.permission.ADD_VOICEMAIL") as H
    by (by vm_compute).
  split; [exact H|].
  exact (PERMISSIONS_naming "ADD_VOICEMAIL"
           "com.android.voicemail.permission.ADD_VOICEMAIL" H).
Defined.
